(** * The Python SDK: storage, handler dispatch, registry and transport

    A shallow embedding of [sdks/python]: [clef/storage.py] (the in-memory
    [ConceptStorage]), [copf/handler.py] ([ConceptHandler.handle]),
    [copf/registry.py] (the process-wide [_REGISTRY]) and the two request
    functions of [copf/transport.py] ([_handle_invoke], [_handle_query]).

    Python objects that are mutated in place (a storage instance, the
    registry) are threaded explicitly: every operation takes the state it
    runs in and returns the state it leaves.  A coroutine is awaited as soon
    as it is created everywhere in the code, so [await f(x)] is read as the
    call [f x]. *)

From Stdlib Require Import Ascii.
From stdpp Require Import base option list strings gmap.

Set Warnings "-register-all".
Open Scope string_scope.

(** ** Python values

    The values that travel through the SDK are decoded JSON: [None], booleans,
    integers, strings, lists and string-keyed dicts.  JSON numbers with a
    fraction (Python floats) are left out of the universe.

    A Python [dict] keeps its items in insertion order, so a dict is an
    association list; [odict] collects what the code uses of it. *)

Module odict.

Abbreviation t V := (list (string * V)).

(** [d.get(k)] as an option; the first binding of [k] is the live one. *)
Fixpoint get {V} (k : string) (d : t V) : option V :=
  match d with
  | [] => None
  | (k', v) :: d' => if String.eqb k k' then Some v else get k d'
  end.

(** [k in d] *)
Definition contains {V} (k : string) (d : t V) : bool :=
  match get k d with Some _ => true | None => false end.

(** [d[k] = v]: an existing key keeps its position, a new key goes last. *)
Fixpoint set {V} (k : string) (v : V) (d : t V) : t V :=
  match d with
  | [] => [(k, v)]
  | (k', v') :: d' =>
      if String.eqb k k' then (k', v) :: d' else (k', v') :: set k v d'
  end.

(** [del d[k]] *)
Fixpoint del {V} (k : string) (d : t V) : t V :=
  match d with
  | [] => []
  | (k', v') :: d' => if String.eqb k k' then d' else (k', v') :: del k d'
  end.

(** [d.values()] and [d.items()] *)
Definition values {V} (d : t V) : list V := map snd d.
Definition items {V} (d : t V) : list (string * V) := d.

End odict.

Inductive value : Type :=
| VNone
| VBool (b : bool)
| VInt (n : Z)
| VStr (s : string)
| VList (xs : list value)
| VDict (d : list (string * value)).

Abbreviation pydict := (list (string * value)).

(** Python's [==] on these values.  [bool] is a subclass of [int], so
    [True == 1]; lists compare element-wise; dicts compare as maps, whatever
    the order of their items. *)
Fixpoint py_eq (a b : value) {struct a} : bool :=
  match a, b with
  | VNone, VNone => true
  | VBool x, VBool y => Bool.eqb x y
  | VBool x, VInt y => Z.eqb (Z.b2z x) y
  | VInt x, VBool y => Z.eqb x (Z.b2z y)
  | VInt x, VInt y => Z.eqb x y
  | VStr x, VStr y => String.eqb x y
  | VList xs, VList ys =>
      (fix eq_items (l : list value) (r : list value) {struct l} : bool :=
         match l, r with
         | [], [] => true
         | x :: l', y :: r' => py_eq x y && eq_items l' r'
         | _, _ => false
         end) xs ys
  | VDict d1, VDict d2 =>
      Nat.eqb (length d1) (length d2)
      && (fix eq_fields (l : list (string * value)) {struct l} : bool :=
            match l with
            | [] => true
            | (k, x) :: l' =>
                match odict.get k d2 with
                | Some y => py_eq x y
                | None => false
                end && eq_fields l'
            end) d1
  | _, _ => false
  end.

(** [r.get(k)]: the field, or [None] when [r] has no key [k]. *)
Definition dict_get (r : pydict) (k : string) : value :=
  match odict.get k r with
  | Some x => x
  | None => VNone
  end.

(** ** storage.py *)

Module InMemoryStorage.

(** [time.time()] at the moment of a write; nothing reads it back. *)
Definition Time : Type := Z.

(** The entry [{"value": value, "meta": {"lastWrittenAt": ...}}]. *)
Record StoredEntry : Type := {
  entry_value : pydict;
  meta_lastWrittenAt : Time;
}.

(** An entry is a dict with two keys, hence never empty: [if entry] is true
    for every entry. *)
Definition entry_truthy (e : StoredEntry) : bool := true.

Abbreviation Relation := (list (string * StoredEntry)).

(** [self._relations] *)
Record t : Type := { _relations : gmap string Relation }.

(** [InMemoryStorage()] *)
Definition init : t := {| _relations := ∅ |}.

Definition _ensure_relation (self : t) (relation : string) : Relation * t :=
  match _relations self !! relation with
  | None =>
      let self' := {| _relations := <[relation := []]> (_relations self) |} in
      ([], self')
  | Some rel => (rel, self)
  end.

(** [rel] is a reference into [self._relations]: a write to it is a write
    to the relation stored under [relation]. *)
Definition store_relation (self : t) (relation : string) (rel : Relation) : t :=
  {| _relations := <[relation := rel]> (_relations self) |}.

Definition get (self : t) (relation key : string) : option pydict * t :=
  let '(rel, self) := _ensure_relation self relation in
  let entry := odict.get key rel in
  (match entry with
   | Some e => if entry_truthy e then Some (entry_value e) else None
   | None => None
   end, self).

Definition put (now : Time) (self : t) (relation key : string) (v : pydict)
  : unit * t :=
  let '(rel, self) := _ensure_relation self relation in
  let rel := odict.set key {| entry_value := v; meta_lastWrittenAt := now |} rel in
  (tt, store_relation self relation rel).

Definition delete (self : t) (relation key : string) : bool * t :=
  let '(rel, self) := _ensure_relation self relation in
  if odict.contains key rel then
    (true, store_relation self relation (odict.del key rel))
  else (false, self).

(** [if args:] is false for [None] and for the empty dict. *)
Definition args_truthy (args : option pydict) : bool :=
  match args with
  | Some (_ :: _) => true
  | _ => false
  end.

Definition find (self : t) (relation : string) (args : option pydict)
  : list pydict * t :=
  let '(rel, self) := _ensure_relation self relation in
  let results := map entry_value (odict.values rel) in
  let results :=
    if args_truthy args then
      List.filter
        (fun r => forallb (fun '(k, v) => py_eq (dict_get r k) v)
                          (odict.items (default [] args)))
        results
    else results in
  (results, self).

End InMemoryStorage.

(** ** Exceptions

    A call either returns or raises; the state it leaves is kept in both
    cases, as a Python object mutated before a [raise] stays mutated. *)

Inductive exn : Type :=
| TypeError (msg : string)
| OtherException (name msg : string).

Inductive outcome (A : Type) : Type :=
| Returns (a : A)
| Raises (e : exn).
Arguments Returns {A} a.
Arguments Raises {A} e.

Definition M (S A : Type) : Type := S -> outcome A * S.

Definition ret {S A} (a : A) : M S A := fun s => (Returns a, s).
Definition raise {S A} (e : exn) : M S A := fun s => (Raises e, s).
Definition bind {S A B} (m : M S A) (k : A -> M S B) : M S B :=
  fun s =>
    match m s with
    | (Returns a, s') => k a s'
    | (Raises e, s') => (Raises e, s')
    end.

Declare Scope py_scope.
Delimit Scope py_scope with py.
Notation "'await' x ':=' m 'in' k" := (bind m (fun x => k))
  (at level 10, x name, m at level 100, k at level 200) : py_scope.

(** ** handler.py *)

Module ConceptHandler.

(** The signature of an action: [async def name(self, input, storage)].
    Awaiting it returns some Python value or raises, and may write to the
    storage it was given.  An [async def] with another parameter list is an
    action whose call raises [TypeError].  The actions considered work on
    the storage they are given and on nothing else of the process: not on
    the registry, not on another storage, not on their input dict. *)
Definition action_fn : Type := pydict -> M InMemoryStorage.t value.

(** What [getattr(self, name)] can find on a handler instance, as far as
    [handle] tells attributes apart. *)
Inductive attr : Type :=
| PyNone                        (* an attribute bound to [None] *)
| Plain                         (* any other object that is not a coroutine function:
                                   a [def] method, a class, a string, ... *)
| Coroutine (f : action_fn)     (* [async def name(self, input, storage)] *)
| Dispatcher.                   (* the bound method [ConceptHandler.handle] itself:
                                   [async def handle(self, action, input, storage)] *)

(** A handler instance is given by the namespace of its class (and of the
    instance), the part that a subclass of [ConceptHandler] declares.  The
    handlers considered are the subclasses that keep the dispatcher they
    inherit: they declare no attribute named [handle] of their own. *)
Record t : Type := {
  declared : gmap string attr;
  inherits_handle : declared !! "handle" = None;
}.

(** What an instance gets beyond the names its class declares: the one
    method of the base class, and the attributes the interpreter gives every
    class and instance.  [__doc__] is [None] for a subclass that has no
    docstring (one with a docstring lists it in [declared]); [__weakref__]
    is [None] as long as nothing holds a weak reference to the instance;
    [__module__] is a string and [__dict__] is the instance's dict. *)
Definition base_namespace : list (string * attr) :=
  [("handle", Dispatcher); ("__doc__", PyNone); ("__module__", Plain);
   ("__dict__", Plain); ("__weakref__", PyNone)].

(** The attributes every instance inherits from [object]. *)
Definition object_namespace : list string :=
  ["__class__"; "__delattr__"; "__dir__"; "__eq__"; "__format__"; "__ge__";
   "__getattribute__"; "__getstate__"; "__gt__"; "__hash__"; "__init__";
   "__init_subclass__"; "__le__"; "__lt__"; "__ne__"; "__new__";
   "__reduce__"; "__reduce_ex__"; "__repr__"; "__setattr__"; "__sizeof__";
   "__str__"; "__subclasshook__"].

(** Attribute lookup along the method resolution order: the subclass, then
    [ConceptHandler], then [object]. *)
Definition lookup_attr (self : t) (name : string) : option attr :=
  match declared self !! name with
  | Some a => Some a
  | None =>
      match odict.get name base_namespace with
      | Some a => Some a
      | None =>
          if existsb (String.eqb name) object_namespace then Some Plain
          else None
      end
  end.

(** [getattr(self, name, None)] *)
Definition getattr (self : t) (name : string) : attr :=
  default PyNone (lookup_attr self name).

(** [method is None] *)
Definition is_None (a : attr) : bool :=
  match a with PyNone => true | _ => false end.

(** [inspect.iscoroutinefunction(method)]; it looks through a bound method
    at the function underneath. *)
Definition iscoroutinefunction (a : attr) : bool :=
  match a with
  | Coroutine _ | Dispatcher => true
  | PyNone | Plain => false
  end.

(** [method(input, storage)]: the two arguments are bound to the parameters
    after [self].  [handle] has three, so its last one stays unbound and
    the call raises before any coroutine exists.  [handle] calls nothing but
    coroutine functions; the other two cases are there to make [call]
    total. *)
Definition call (method : attr) (input : pydict) : M InMemoryStorage.t value :=
  match method with
  | Coroutine f => f input
  | Dispatcher =>
      raise (TypeError
        "ConceptHandler.handle() missing 1 required positional argument: 'storage'")
  | PyNone => raise (TypeError "'NoneType' object is not callable")
  | Plain => raise (TypeError "object is not an awaitable action")
  end.

Definition error (message : string) : pydict :=
  [("variant", VStr "error"); ("message", VStr message)].

(** [ConceptHandler.handle(self, action, input, storage)] *)
Definition handle (self : t) (action : string) (input : pydict)
  : M InMemoryStorage.t pydict :=
  let method := getattr self action in
  if is_None method then
    ret (error ("Unknown action: " +:+ action))
  else if negb (iscoroutinefunction method) then
    ret (error ("Action '" +:+ action +:+ "' must be async"))
  else
    (await result := call method input in
     match result with
     | VDict d =>
         if negb (odict.contains "variant" d) then
           ret (error ("Action '" +:+ action +:+
                       "' must return dict with 'variant' key"))
         else ret d
     | _ =>
         ret (error ("Action '" +:+ action +:+
                     "' must return dict with 'variant' key"))
     end)%py.

End ConceptHandler.

(** ** registry.py

    [_REGISTRY] maps a concept URI to a pair of a handler instance and a
    storage instance.  Storage instances are objects: [register] may be given
    the same instance for several URIs, so the registry holds references into
    a heap of storages. *)

Definition loc : Type := nat.

Record World : Type := {
  _REGISTRY : gmap string (ConceptHandler.t * loc);
  heap : gmap loc InMemoryStorage.t;
}.

(** The storage object behind a reference. *)
Definition deref (w : World) (l : loc) : InMemoryStorage.t :=
  default InMemoryStorage.init (heap w !! l).

Definition assign (w : World) (l : loc) (s : InMemoryStorage.t) : World :=
  {| _REGISTRY := _REGISTRY w; heap := <[l := s]> (heap w) |}.

(** Run a computation on the storage object behind [l]. *)
Definition with_storage {A} (l : loc) (m : M InMemoryStorage.t A) : M World A :=
  fun w =>
    let '(r, s) := m (deref w l) in
    (r, assign w l s).

(** The decorator [register(uri, storage)] applied to a class whose instance
    is [instance]: with no storage given, a new [InMemoryStorage()] is
    allocated. *)
Definition register (uri : string) (storage : option loc)
    (instance : ConceptHandler.t) (w : World) : World :=
  match storage with
  | Some l => {| _REGISTRY := <[uri := (instance, l)]> (_REGISTRY w); heap := heap w |}
  | None =>
      let l := fresh (dom (heap w)) in
      {| _REGISTRY := <[uri := (instance, l)]> (_REGISTRY w);
         heap := <[l := InMemoryStorage.init]> (heap w) |}
  end.

(** ** transport.py

    A decoded request body.  Each field is either absent or carries a value
    of the type the wire protocol gives it. *)

Record InvokeBody : Type := {
  body_id : option string;
  body_concept : option string;
  body_action : option string;
  body_input : option pydict;
  body_flow : option string;
}.

Record QueryBody : Type := {
  query_concept : option string;
  query_relation : option string;
  query_args : option pydict;
}.

(** What one run of [_handle_invoke] takes from the environment: the two
    [str(uuid.uuid4())] results, in evaluation order, and the formatted
    [time.strftime("%Y-%m-%dT%H:%M:%SZ", time.gmtime())]. *)
Record Env : Type := {
  uuid4_flow : string;
  uuid4_id : string;
  strftime_gmtime : string;
}.

Definition _handle_invoke (env : Env) (body : InvokeBody) : M World pydict :=
  let concept_uri := default "" (body_concept body) in
  let action := default "" (body_action body) in
  let input_data := default [] (body_input body) in
  let flow := default (uuid4_flow env) (body_flow body) in
  let invocation_id := default (uuid4_id env) (body_id body) in
  fun w =>
    match _REGISTRY w !! concept_uri with
    | None =>
        ret [("id", VStr invocation_id);
             ("concept", VStr concept_uri);
             ("action", VStr action);
             ("input", VDict input_data);
             ("variant", VStr "error");
             ("output", VDict [("variant", VStr "error");
                               ("message", VStr ("Unknown concept: " +:+ concept_uri))]);
             ("flow", VStr flow);
             ("timestamp", VStr (strftime_gmtime env))] w
    | Some (handler, storage) =>
        (await result := with_storage storage
                           (ConceptHandler.handle handler action input_data) in
         let variant := default (VStr "ok") (odict.get "variant" result) in
         ret [("id", VStr invocation_id);
              ("concept", VStr concept_uri);
              ("action", VStr action);
              ("input", VDict input_data);
              ("variant", variant);
              ("output", VDict result);
              ("flow", VStr flow);
              ("timestamp", VStr (strftime_gmtime env))])%py w
    end.

Definition _handle_query (body : QueryBody) (w : World) : list pydict * World :=
  let concept_uri := default "" (query_concept body) in
  let relation := default "" (query_relation body) in
  let args := query_args body in
  match _REGISTRY w !! concept_uri with
  | None => ([], w)
  | Some (_, storage) =>
      let '(r, s) := InMemoryStorage.find (deref w storage) relation args in
      (r, assign w storage s)
  end.

(** ** transport.py: the two servers

    One request and its response, as far as the two servers built by [serve]
    and [_serve_stdlib] can be compared: the method is one of the two the
    protocol uses.  [req_path] is the request target as it stands on the
    request line; each library derives from it the path it routes on. *)

Inductive http_method : Type := GET | POST.

Definition http_method_eqb (a b : http_method) : bool :=
  match a, b with
  | GET, GET | POST, POST => true
  | _, _ => false
  end.

(** The request body as [json.loads] sees it.  A JSON object is given by its
    two readings, as an [ActionInvocation] and as a [ConceptQuery]. *)
Inductive content : Type :=
| NoContent                   (* no body: [Content-Length] is 0 *)
| NotJson                     (* bytes that [json.loads] rejects *)
| NotObject                   (* JSON, but not an object: it has no [.get] *)
| Object (as_invocation : InvokeBody) (as_query : QueryBody).

Record Request : Type := {
  req_method : http_method;
  req_path : string;
  req_content : content;
}.

(** [self.path] in a [BaseHTTPRequestHandler]: the request target, where
    [http.server] has replaced a run of leading slashes by a single one. *)
Fixpoint lstrip_slashes (t : string) : string :=
  match t with
  | String c t' => if Ascii.eqb c "/"%char then lstrip_slashes t' else t
  | EmptyString => t
  end.

Definition http_server_path (target : string) : string :=
  match target with
  | String c (String c' _) =>
      if (Ascii.eqb c "/"%char && Ascii.eqb c' "/"%char)%bool
      then "/" +:+ lstrip_slashes target
      else target
  | _ => target
  end.

(** The path that the router of aiohttp matches: the request target up to
    its first [?] or [#]. *)
Fixpoint url_path (target : string) : string :=
  match target with
  | EmptyString => EmptyString
  | String c t' =>
      if (Ascii.eqb c "?"%char || Ascii.eqb c "#"%char)%bool then EmptyString
      else String c (url_path t')
  end.




(** A response is a status code and, when the body is JSON, the value that
    was given to [json.dumps]; both servers call the same encoder with the
    same options ([web.json_response] encodes with [json.dumps]).
    [NoResponse]: the connection is closed with nothing sent. *)
Inductive response : Type :=
| Status (code : nat) (json : option value)
| NoResponse.

(** What the code holds after decoding a body. *)
Inductive json_body : Type :=
| JObject (as_invocation : InvokeBody) (as_query : QueryBody)
| JOther.

Definition empty_invocation : InvokeBody :=
  {| body_id := None; body_concept := None; body_action := None;
     body_input := None; body_flow := None |}.

Definition empty_query : QueryBody :=
  {| query_concept := None; query_relation := None; query_args := None |}.

(** [_handle_invoke(body)] and [_handle_query(body)] on a decoded body: the
    first thing either does is [body.get]. *)
Definition invoke_json (env : Env) (body : json_body) : M World value :=
  match body with
  | JObject b _ => (await result := _handle_invoke env b in ret (VDict result))%py
  | JOther => raise (OtherException "AttributeError" "object has no attribute 'get'")
  end.

Definition query_json (body : json_body) : M World value :=
  match body with
  | JObject _ q =>
      fun w => let '(r, w') := _handle_query q w in (Returns (VList (map VDict r)), w')
  | JOther => raise (OtherException "AttributeError" "object has no attribute 'get'")
  end.

Definition health : value := VDict [("healthy", VBool true); ("latencyMs", VInt 0)].

(** *** [serve]: the aiohttp application *)

(** [await request.json()]: the body text through [json.loads]. *)
Definition request_json (c : content) : M World json_body :=
  match c with
  | NoContent | NotJson => raise (OtherException "JSONDecodeError" "Expecting value")
  | NotObject => ret JOther
  | Object b q => ret (JObject b q)
  end.

Definition invoke_handler (env : Env) (request : Request) : M World value :=
  (await body := request_json (req_content request) in invoke_json env body)%py.

Definition query_handler (env : Env) (request : Request) : M World value :=
  (await body := request_json (req_content request) in query_json body)%py.

Definition health_handler (env : Env) (request : Request) : M World value :=
  ret health.

(** [app.router.add_post("/invoke", ...)], [add_post("/query", ...)],
    [add_get("/health", ...)]. *)
Definition routes : list (http_method * string * (Env → Request → M World value)) :=
  [(POST, "/invoke", invoke_handler);
   (POST, "/query", query_handler);
   (GET, "/health", health_handler)].

(** The router of aiohttp: the first route with this method and path; with
    none, 405 when some route has the path, 404 otherwise. *)
Inductive resolution : Type :=
| Matched (handler : Env → Request → M World value)
| MethodNotAllowed
| NotFound.

Definition resolve (request : Request) : resolution :=
  let path := url_path (req_path request) in
  match List.find (fun '(m, p, _) => http_method_eqb (req_method request) m
                                      && String.eqb path p) routes with
  | Some (_, _, handler) => Matched handler
  | None =>
      if existsb (fun '(_, p, _) => String.eqb path p) routes
      then MethodNotAllowed else NotFound
  end.

(** An exception that leaves a handler is answered by aiohttp with 500. *)
Definition serve (env : Env) (request : Request) (w : World) : response * World :=
  match resolve request with
  | Matched handler =>
      match handler env request w with
      | (Returns result, w') => (Status 200 (Some result), w')
      | (Raises e, w') => (Status 500 None, w')
      end
  | MethodNotAllowed => (Status 405 None, w)
  | NotFound => (Status 404 None, w)
  end.

(** *** [_serve_stdlib]: the [http.server] fallback *)

(** [json.loads(self.rfile.read(length)) if length > 0 else {}] *)
Definition read_body (c : content) : M World json_body :=
  match c with
  | NoContent => ret (JObject empty_invocation empty_query)
  | NotJson => raise (OtherException "JSONDecodeError" "Expecting value")
  | NotObject => ret JOther
  | Object b q => ret (JObject b q)
  end.

(** An exception that leaves [do_POST] is logged by [socketserver], which
    then closes the connection. *)
Definition do_POST (env : Env) (request : Request) (w : World) : response * World :=
  match read_body (req_content request) w with
  | (Raises e, w') => (NoResponse, w')
  | (Returns body, w') =>
      let result :=
        if String.eqb (http_server_path (req_path request)) "/invoke"
        then Some (invoke_json env body w')
        else if String.eqb (http_server_path (req_path request)) "/query"
        then Some (query_json body w')
        else None in
      match result with
      | None => (Status 404 None, w')
      | Some (Raises e, w'') => (NoResponse, w'')
      | Some (Returns result, w'') => (Status 200 (Some result), w'')
      end
  end.

Definition do_GET (request : Request) (w : World) : response * World :=
  if String.eqb (http_server_path (req_path request)) "/health"
  then (Status 200 (Some health), w)
  else (Status 404 None, w).

Definition _serve_stdlib (env : Env) (request : Request) (w : World)
  : response * World :=
  match req_method request with
  | POST => do_POST env request w
  | GET => do_GET request w
  end.






(** The scenario of the specification: [echo] on [urn:test/Echo]. *)
Definition test_env : Env :=
  {| uuid4_flow := "f-1"; uuid4_id := "i-1";
     strftime_gmtime := "2024-01-01T00:00:00Z" |}.

Definition echo_invocation : InvokeBody :=
  {| body_id := None; body_concept := Some "urn:test/Echo";
     body_action := Some "echo"; body_input := Some [("message", VStr "hi")];
     body_flow := None |}.



(** ** Vocabulary of the storage properties *)

(** The relation stored under a name; a name never accessed reads as the
    empty relation, which is what [_ensure_relation] would create. *)
Definition rel_of (s : InMemoryStorage.t) (r : string) : list (string * InMemoryStorage.StoredEntry) :=
  default [] (InMemoryStorage._relations s !! r).

(** The values stored in a relation, in the order of [rel.values()]. *)
Definition stored_values (s : InMemoryStorage.t) (r : string) : list pydict :=
  map InMemoryStorage.entry_value (odict.values (rel_of s r)).

(** A stored value matches a filter, in the words of the specification:
    every key of the filter is present in the value and its field equals the
    filter value. *)
Definition matches_filter (f r : pydict) : Prop :=
  ∀ k fv, In (k, fv) f →
    ∃ x, odict.get k r = Some x ∧ py_eq x fv = true.

(** The same with the reading of an absent field that [r.get(k)] gives: an
    absent field compares as [None], so it matches a null filter value and
    nothing else. *)
Definition matches_filter_absent_as_null (f r : pydict) : Prop :=
  ∀ k fv, In (k, fv) f →
    (∃ x, odict.get k r = Some x ∧ py_eq x fv = true)
    ∨ (odict.get k r = None ∧ fv = VNone).

(** A client of one storage instance: a sequence of calls. *)
Inductive op : Type :=
| Get (relation key : string)
| Put (now : InMemoryStorage.Time) (relation key : string) (v : pydict)
| Delete (relation key : string)
| Find (relation : string) (args : option pydict).

Definition step (s : InMemoryStorage.t) (o : op) : InMemoryStorage.t :=
  match o with
  | Get r k => (InMemoryStorage.get s r k).2
  | Put now r k v => (InMemoryStorage.put now s r k v).2
  | Delete r k => (InMemoryStorage.delete s r k).2
  | Find r args => (InMemoryStorage.find s r args).2
  end.

Definition run (s : InMemoryStorage.t) (ops : list op) : InMemoryStorage.t :=
  fold_left step ops s.

(** [o] is a [put] of key [k] in relation [r]; [o] is a [put] in [r]. *)
Definition writes_key (r k : string) (o : op) : bool :=
  match o with
  | Put _ r' k' _ => String.eqb r r' && String.eqb k k'
  | _ => false
  end.

Definition writes_relation (r : string) (o : op) : bool :=
  match o with
  | Put _ r' _ _ => String.eqb r r'
  | _ => false
  end.

(** A storage with one user who has no [role] field, and a filter that asks
    for a null [role]. *)
Definition alice : pydict := [("name", VStr "Alice")].

Definition users_with_alice : InMemoryStorage.t :=
  (InMemoryStorage.put 0%Z InMemoryStorage.init "users" "alice" alice).2.

Definition role_is_null : pydict := [("role", VNone)].

(** ** tests/test_sdk.py: the handler used by the tests

    [EchoHandler] declares two actions and one method that is not [async];
    the class has no docstring, so its [__doc__] is [None]. *)

Definition echo : ConceptHandler.action_fn :=
  fun input =>
    ret (VDict [("variant", VStr "ok");
                ("message", default (VStr "") (odict.get "message" input))]).

Definition fail : ConceptHandler.action_fn :=
  fun input =>
    ret (VDict [("variant", VStr "error");
                ("message", VStr "intentional failure")]).

Definition EchoHandler : ConceptHandler.t :=
  {| ConceptHandler.declared :=
       <["echo" := ConceptHandler.Coroutine echo]>
         (<["fail" := ConceptHandler.Coroutine fail]>
            (<["not_async" := ConceptHandler.Plain]>
               (<["__doc__" := ConceptHandler.PyNone]> ∅)));
     ConceptHandler.inherits_handle := eq_refl |}.

(** The process before any registration, and after
    [@register("urn:test/Echo")] on [EchoHandler]. *)
Definition empty_world : World := {| _REGISTRY := ∅; heap := ∅ |}.

Definition echo_world : World :=
  register "urn:test/Echo" None EchoHandler empty_world.

(** An [ActionCompletion] carries its variant twice: its [output] is a dict
    with a [variant] key, and its own [variant] field is that same value. *)
Definition completion_carries_variant (c : pydict) : Prop :=
  ∃ out v,
    odict.get "output" c = Some (VDict out)
    ∧ odict.get "variant" out = Some v
    ∧ odict.get "variant" c = Some v.

(** ** Vocabulary of the further properties *)

(** The keys of every relation are pairwise distinct, as the keys of a
    Python dict are. *)
Definition keys_unique (s : InMemoryStorage.t) : Prop :=
  ∀ r, NoDup (map fst (rel_of s r)).

(** Two storage states hold the same relations.  They may differ in which
    empty relations [_ensure_relation] has created so far. *)
Definition same_contents (s s' : InMemoryStorage.t) : Prop :=
  ∀ r, rel_of s r = rel_of s' r.

(** What a call of the client returns. *)
Inductive result : Type :=
| GetResult (v : option pydict)
| PutResult
| DeleteResult (existed : bool)
| FindResult (values : list pydict).

Definition exec (s : InMemoryStorage.t) (o : op) : result * InMemoryStorage.t :=
  match o with
  | Get r k => let '(v, s') := InMemoryStorage.get s r k in (GetResult v, s')
  | Put now r k v => let '(_, s') := InMemoryStorage.put now s r k v in (PutResult, s')
  | Delete r k => let '(b, s') := InMemoryStorage.delete s r k in (DeleteResult b, s')
  | Find r args => let '(l, s') := InMemoryStorage.find s r args in (FindResult l, s')
  end.

(** The results of a sequence of calls, ignoring the time of each write. *)
Fixpoint trace (s : InMemoryStorage.t) (ops : list op) : list result :=
  match ops with
  | [] => []
  | o :: ops' => let '(x, s') := exec s o in x :: trace s' ops'
  end.

Definition is_read (o : op) : bool :=
  match o with
  | Get _ _ | Find _ _ => true
  | Put _ _ _ _ | Delete _ _ => false
  end.

(** The relation an operation names. *)
Definition relation_of (o : op) : string :=
  match o with
  | Get r _ | Put _ r _ _ | Delete r _ | Find r _ => r
  end.

(** Pairwise distinct keys, as in every dict. *)
Fixpoint distinct (ks : list string) : bool :=
  match ks with
  | [] => true
  | k :: ks' => negb (existsb (String.eqb k) ks') && distinct ks'
  end.

(** Every storage reference held by the registry points into the heap. *)
Definition refs_allocated (w : World) : Prop :=
  ∀ uri h l, _REGISTRY w !! uri = Some (h, l) → l ∈ dom (heap w).

(** The keys of an [ActionCompletion], in the order of the dict literal. *)
Definition completion_keys : list string :=
  ["id"; "concept"; "action"; "input"; "variant"; "output"; "flow"; "timestamp"].

(** An example action, [await storage.put("items", input["id"], input)]
    followed by [return {"variant": "ok"}], for inputs whose [id] is a
    string, and a handler that declares it. *)
Definition save : ConceptHandler.action_fn :=
  fun input s =>
    match odict.get "id" input with
    | Some (VStr k) =>
        let '(_, s') := InMemoryStorage.put 0%Z s "items" k input in
        (Returns (VDict [("variant", VStr "ok")]), s')
    | _ => (Raises (OtherException "KeyError" "'id'"), s)
    end.

Definition SaveHandler : ConceptHandler.t :=
  {| ConceptHandler.declared := <["save" := ConceptHandler.Coroutine save]> ∅;
     ConceptHandler.inherits_handle := eq_refl |}.

(** Two concepts registered on the one storage object that [echo_world]
    holds. *)
Definition shared_world : World :=
  register "urn:test/Reader" (Some 0) EchoHandler
    (register "urn:test/Writer" (Some 0) SaveHandler echo_world).

(** Requests used below: a [save] through the writer, a query through the
    reader. *)
Definition save_invocation : InvokeBody :=
  {| body_id := None; body_concept := Some "urn:test/Writer";
     body_action := Some "save";
     body_input := Some [("id", VStr "a1"); ("title", VStr "first")];
     body_flow := None |}.

Definition items_query : QueryBody :=
  {| query_concept := Some "urn:test/Reader"; query_relation := Some "items";
     query_args := None |}.

(** * Properties *)

(** ** Ordered dicts *)

Section odict_facts.
Context {V : Type}.
Implicit Types (k : string) (v : V) (d : odict.t V).

Lemma odict_get_set_eq k v d : odict.get k (odict.set k v d) = Some v.
Proof.
  induction d as [|[k' v'] d IH]; simpl.
  - by rewrite String.eqb_refl.
  - destruct (String.eqb_spec k k') as [->|Hne]; simpl.
    + by rewrite String.eqb_refl.
    + by destruct (String.eqb_spec k k').
Qed.

Lemma odict_get_set_ne k k' v d :
  k ≠ k' → odict.get k' (odict.set k v d) = odict.get k' d.
Proof.
  intros Hne. induction d as [|[k0 v0] d IH]; simpl.
  - by destruct (String.eqb_spec k' k) as [->|_].
  - destruct (String.eqb_spec k k0) as [->|Hk]; simpl.
    + by destruct (String.eqb_spec k' k0) as [->|_].
    + by rewrite IH.
Qed.

Lemma odict_get_del_None k k' d :
  odict.get k d = None → odict.get k (odict.del k' d) = None.
Proof.
  induction d as [|[k0 v0] d IH]; simpl; [done|].
  destruct (String.eqb_spec k k0) as [->|Hk]; [done|].
  intros Hd. destruct (String.eqb_spec k' k0) as [->|Hk']; simpl; [done|].
  destruct (String.eqb_spec k k0); [done|]. by apply IH.
Qed.

Lemma odict_get_del_ne k k' d :
  k ≠ k' → odict.get k' (odict.del k d) = odict.get k' d.
Proof.
  intros Hne. induction d as [|[k0 v0] d IH]; simpl; [done|].
  destruct (String.eqb_spec k k0) as [->|Hk]; simpl.
  - by destruct (String.eqb_spec k' k0) as [->|_].
  - by rewrite IH.
Qed.

End odict_facts.

(** ** Storage: every operation seen through the relation it reads *)

Lemma ensure_relation_fst s r :
  (InMemoryStorage._ensure_relation s r).1 = rel_of s r.
Proof.
  unfold InMemoryStorage._ensure_relation, rel_of.
  by destruct (InMemoryStorage._relations s !! r).
Qed.

Lemma ensure_relation_snd s r r' :
  rel_of (InMemoryStorage._ensure_relation s r).2 r' = rel_of s r'.
Proof.
  unfold InMemoryStorage._ensure_relation, rel_of.
  destruct (InMemoryStorage._relations s !! r) eqn:Hr; simpl; [done|].
  destruct (decide (r = r')) as [<-|Hne].
  - by rewrite lookup_insert_eq, Hr.
  - by rewrite lookup_insert_ne.
Qed.

Lemma rel_of_store s r rel r' :
  rel_of (InMemoryStorage.store_relation s r rel) r'
  = if decide (r = r') then rel else rel_of s r'.
Proof.
  unfold InMemoryStorage.store_relation, rel_of; simpl.
  destruct (decide (r = r')) as [<-|Hne].
  - by rewrite lookup_insert_eq.
  - by rewrite lookup_insert_ne.
Qed.

Lemma get_result s r k :
  (InMemoryStorage.get s r k).1
  = InMemoryStorage.entry_value <$> odict.get k (rel_of s r).
Proof.
  unfold InMemoryStorage.get.
  pose proof (ensure_relation_fst s r) as H.
  destruct (InMemoryStorage._ensure_relation s r) as [rel s']; simpl in *.
  subst rel. by destruct (odict.get k (rel_of s r)).
Qed.

Lemma get_state s r k r' :
  rel_of (InMemoryStorage.get s r k).2 r' = rel_of s r'.
Proof.
  unfold InMemoryStorage.get.
  pose proof (ensure_relation_snd s r r') as H.
  by destruct (InMemoryStorage._ensure_relation s r) as [rel s'].
Qed.

Lemma put_state now s r k v r' :
  rel_of (InMemoryStorage.put now s r k v).2 r'
  = if decide (r = r')
    then odict.set k {| InMemoryStorage.entry_value := v;
                        InMemoryStorage.meta_lastWrittenAt := now |} (rel_of s r)
    else rel_of s r'.
Proof.
  unfold InMemoryStorage.put.
  pose proof (ensure_relation_fst s r) as H1.
  pose proof (ensure_relation_snd s r r') as H2.
  destruct (InMemoryStorage._ensure_relation s r) as [rel s']; simpl in *.
  rewrite rel_of_store. subst rel. by destruct (decide (r = r')).
Qed.

Lemma delete_result s r k :
  (InMemoryStorage.delete s r k).1 = odict.contains k (rel_of s r).
Proof.
  unfold InMemoryStorage.delete.
  pose proof (ensure_relation_fst s r) as H.
  destruct (InMemoryStorage._ensure_relation s r) as [rel s']; simpl in *.
  subst rel. by destruct (odict.contains k (rel_of s r)).
Qed.

Lemma delete_state s r k r' :
  rel_of (InMemoryStorage.delete s r k).2 r'
  = if decide (r = r') then odict.del k (rel_of s r) else rel_of s r'.
Proof.
  unfold InMemoryStorage.delete.
  pose proof (ensure_relation_fst s r) as H1.
  pose proof (ensure_relation_snd s r r') as H2.
  pose proof (ensure_relation_snd s r r) as H3.
  destruct (InMemoryStorage._ensure_relation s r) as [rel s']; simpl in *.
  subst rel. unfold odict.contains.
  destruct (odict.get k (rel_of s r)) eqn:Hk; simpl.
  - rewrite rel_of_store. by destruct (decide (r = r')).
  - destruct (decide (r = r')) as [<-|Hne]; [|done].
    rewrite H3. clear -Hk. induction (rel_of s r) as [|[k0 e0] d IH]; simpl in *; [done|].
    destruct (String.eqb_spec k k0); [done|]. by rewrite <- IH.
Qed.

Lemma find_result s r args :
  (InMemoryStorage.find s r args).1
  = if InMemoryStorage.args_truthy args
    then List.filter
           (fun x => forallb (fun '(k, v) => py_eq (dict_get x k) v) (default [] args))
           (stored_values s r)
    else stored_values s r.
Proof.
  unfold InMemoryStorage.find, stored_values.
  pose proof (ensure_relation_fst s r) as H.
  destruct (InMemoryStorage._ensure_relation s r) as [rel s']; simpl in *.
  by subst rel.
Qed.

Lemma find_state s r args r' :
  rel_of (InMemoryStorage.find s r args).2 r' = rel_of s r'.
Proof.
  unfold InMemoryStorage.find.
  pose proof (ensure_relation_snd s r r') as H.
  by destruct (InMemoryStorage._ensure_relation s r) as [rel s'].
Qed.

(** ** Comparison with [None] *)

Lemma py_eq_None_l (b : value) : py_eq VNone b = true ↔ b = VNone.
Proof. destruct b; simpl; split; intros H; try done. Qed.

Lemma field_matches r k fv :
  py_eq (dict_get r k) fv = true
  ↔ (∃ x, odict.get k r = Some x ∧ py_eq x fv = true)
    ∨ (odict.get k r = None ∧ fv = VNone).
Proof.
  unfold dict_get. destruct (odict.get k r) as [x|] eqn:Hk.
  - split.
    + intros H. left. eauto.
    + intros [(y & Hy & H)|[Hn _]]; [by injection Hy as ->|done].
  - rewrite py_eq_None_l. split.
    + intros ->. by right.
    + intros [(y & Hy & _)|[_ H]]; done.
Qed.

Lemma filter_matches f r :
  forallb (fun '(k, v) => py_eq (dict_get r k) v) f = true
  ↔ matches_filter_absent_as_null f r.
Proof.
  rewrite forallb_forall. unfold matches_filter_absent_as_null. split.
  - intros H k fv Hin. apply field_matches. apply (H (k, fv) Hin).
  - intros H [k fv] Hin. apply field_matches. by apply H.
Qed.

(** ** tests/test_sdk.py, replayed on the model *)

Example test_handler_dispatches_to_correct_method :
  (ConceptHandler.handle EchoHandler "echo" [("message", VStr "hello")]
     InMemoryStorage.init).1
  = Returns [("variant", VStr "ok"); ("message", VStr "hello")].
Proof. reflexivity. Qed.

Example test_handler_returns_error_for_non_async_method :
  (ConceptHandler.handle EchoHandler "not_async" [] InMemoryStorage.init).1
  = Returns [("variant", VStr "error");
             ("message", VStr "Action 'not_async' must be async")].
Proof. reflexivity. Qed.

Example test_handler_class_without_docstring :
  (ConceptHandler.handle EchoHandler "__doc__" [] InMemoryStorage.init).1
  = Returns [("variant", VStr "error"); ("message", VStr "Unknown action: __doc__")].
Proof. reflexivity. Qed.

Example test_storage_delete :
  let s := users_with_alice in
  (InMemoryStorage.delete s "users" "alice").1 = true
  ∧ (InMemoryStorage.get (InMemoryStorage.delete s "users" "alice").2
       "users" "alice").1 = None.
Proof. by vm_compute. Qed.

Example test_storage_find_with_filter :
  let admin := [("name", VStr "Alice"); ("role", VStr "admin")] in
  let user := [("name", VStr "Bob"); ("role", VStr "user")] in
  let s := run InMemoryStorage.init
             [Put 1%Z "users" "alice" admin; Put 2%Z "users" "bob" user] in
  (InMemoryStorage.find s "users" None).1 = [admin; user]
  ∧ (InMemoryStorage.find s "users" (Some [("role", VStr "admin")])).1 = [admin].
Proof. by vm_compute. Qed.

Example test_register_decorator :
  ∃ storage,
    _REGISTRY echo_world !! "urn:test/Echo" = Some (EchoHandler, storage)
    ∧ deref echo_world storage = InMemoryStorage.init.
Proof. exists 0. by vm_compute. Qed.

Example echo_end_to_end :
  ∃ c, (_handle_invoke test_env echo_invocation echo_world).1 = Returns c
       ∧ odict.get "output" c
         = Some (VDict [("variant", VStr "ok"); ("message", VStr "hi")])
       ∧ odict.get "variant" c = Some (VStr "ok")
       ∧ odict.get "id" c = Some (VStr "i-1").
Proof. eexists. by vm_compute. Qed.

(** ** Round trip and last write wins *)

(** C5: right after [put(r, k, v)], [get(r, k)] returns [v]; and after two
    writes of the same key the second value is the one read back. *)
Theorem put_get_roundtrip :
  (∀ now s r k v,
     (InMemoryStorage.get (InMemoryStorage.put now s r k v).2 r k).1 = Some v)
  ∧ (∀ now1 now2 s r k v1 v2,
       let s1 := (InMemoryStorage.put now1 s r k v1).2 in
       let s2 := (InMemoryStorage.put now2 s1 r k v2).2 in
       (InMemoryStorage.get s2 r k).1 = Some v2).
Proof.
  assert (Hget : ∀ now s r k v,
    (InMemoryStorage.get (InMemoryStorage.put now s r k v).2 r k).1 = Some v).
  { intros now s r k v. rewrite get_result, put_state.
    destruct (decide (r = r)) as [_|Hne]; [|done].
    by rewrite odict_get_set_eq. }
  split; [exact Hget|]. intros now1 now2 s r k v1 v2. simpl. apply Hget.
Qed.

(** ** Keys and relations never written *)

Lemma step_keeps_key_absent r k s o :
  writes_key r k o = false →
  odict.get k (rel_of s r) = None →
  odict.get k (rel_of (step s o) r) = None.
Proof.
  intros Hw Hk. destruct o as [r' k'|now r' k' v|r' k'|r' args]; simpl.
  - by rewrite get_state.
  - rewrite put_state. destruct (decide (r' = r)) as [->|Hr]; [|done].
    simpl in Hw. rewrite String.eqb_refl in Hw. simpl in Hw.
    apply String.eqb_neq in Hw. rewrite odict_get_set_ne; [done|congruence].
  - rewrite delete_state. destruct (decide (r' = r)) as [->|Hr]; [|done].
    by apply odict_get_del_None.
  - by rewrite find_state.
Qed.

Lemma run_keeps_key_absent r k ops : ∀ s,
  forallb (fun o => negb (writes_key r k o)) ops = true →
  odict.get k (rel_of s r) = None →
  odict.get k (rel_of (run s ops) r) = None.
Proof.
  induction ops as [|o ops IH]; intros s Hall Hk; simpl in *; [done|].
  apply andb_true_iff in Hall as [Ho Hall].
  apply IH; [done|]. apply step_keeps_key_absent; [|done].
  by apply negb_true_iff.
Qed.

Lemma step_keeps_relation_empty r s o :
  writes_relation r o = false →
  rel_of s r = [] →
  rel_of (step s o) r = [].
Proof.
  intros Hw Hr. destruct o as [r' k'|now r' k' v|r' k'|r' args]; simpl.
  - by rewrite get_state.
  - rewrite put_state. destruct (decide (r' = r)) as [->|Hne]; [|done].
    simpl in Hw. by rewrite String.eqb_refl in Hw.
  - rewrite delete_state. destruct (decide (r' = r)) as [->|Hne]; [|done].
    by rewrite Hr.
  - by rewrite find_state.
Qed.

Lemma run_keeps_relation_empty r ops : ∀ s,
  forallb (fun o => negb (writes_relation r o)) ops = true →
  rel_of s r = [] →
  rel_of (run s ops) r = [].
Proof.
  induction ops as [|o ops IH]; intros s Hall Hr; simpl in *; [done|].
  apply andb_true_iff in Hall as [Ho Hall].
  apply IH; [done|]. apply step_keeps_relation_empty; [|done].
  by apply negb_true_iff.
Qed.

(** C6: on a storage instance that has gone through any calls none of which
    is a [put] of key [k] in relation [r], [get(r, k)] returns [None] and
    [delete(r, k)] returns [False]; when none is a [put] in [r] at all,
    [find(r, args)] returns the empty list.  The three calls are total. *)
Theorem never_written_absent (ops : list op) (r k : string) :
  let s := run InMemoryStorage.init ops in
  (forallb (fun o => negb (writes_key r k o)) ops = true →
     (InMemoryStorage.get s r k).1 = None
     ∧ (InMemoryStorage.delete s r k).1 = false)
  ∧ (forallb (fun o => negb (writes_relation r o)) ops = true →
     ∀ args, (InMemoryStorage.find s r args).1 = []).
Proof.
  simpl. split.
  - intros Hall.
    assert (Hk : odict.get k (rel_of (run InMemoryStorage.init ops) r) = None)
      by (by apply run_keeps_key_absent).
    rewrite get_result, delete_result. unfold odict.contains. by rewrite Hk.
  - intros Hall args.
    assert (Hr : rel_of (run InMemoryStorage.init ops) r = [])
      by (by apply run_keeps_relation_empty).
    rewrite find_result. unfold stored_values. rewrite Hr. simpl.
    by destruct (InMemoryStorage.args_truthy args).
Qed.

(** ** Isolation of relations *)

(** C8: a [put] or a [delete] in relation [r1] leaves the result of every
    [get] and every [find] on another relation [r2] as it was. *)
Theorem relations_isolated (s : InMemoryStorage.t) (r1 r2 : string) :
  r1 ≠ r2 →
  ∀ now k v k' args,
    let s_put := (InMemoryStorage.put now s r1 k v).2 in
    let s_del := (InMemoryStorage.delete s r1 k).2 in
    (InMemoryStorage.get s_put r2 k').1 = (InMemoryStorage.get s r2 k').1
    ∧ (InMemoryStorage.find s_put r2 args).1 = (InMemoryStorage.find s r2 args).1
    ∧ (InMemoryStorage.get s_del r2 k').1 = (InMemoryStorage.get s r2 k').1
    ∧ (InMemoryStorage.find s_del r2 args).1 = (InMemoryStorage.find s r2 args).1.
Proof.
  intros Hne now k v k' args. simpl.
  assert (Hput : rel_of (InMemoryStorage.put now s r1 k v).2 r2 = rel_of s r2).
  { rewrite put_state. by destruct (decide (r1 = r2)). }
  assert (Hdel : rel_of (InMemoryStorage.delete s r1 k).2 r2 = rel_of s r2).
  { rewrite delete_state. by destruct (decide (r1 = r2)). }
  rewrite !get_result, !find_result. unfold stored_values.
  by rewrite Hput, Hdel.
Qed.

(** ** [find] with a filter *)

(** C1, as stated, fails: the filter [{"role": None}] selects a stored value
    that has no [role] key, because [r.get("role")] is [None] there. *)
Lemma find_null_filter_selects_missing_key :
  (InMemoryStorage.find users_with_alice "users" (Some role_is_null)).1 = [alice]
  ∧ odict.get "role" alice = None
  ∧ ¬ (∀ v, In v (InMemoryStorage.find users_with_alice "users" (Some role_is_null)).1
            ↔ In v (stored_values users_with_alice "users")
              ∧ matches_filter role_is_null v).
Proof.
  assert (Hres : (InMemoryStorage.find users_with_alice "users"
                    (Some role_is_null)).1 = [alice]) by (by vm_compute).
  split; [exact Hres|]. split; [done|].
  intros Hclaim. rewrite Hres in Hclaim.
  destruct (Hclaim alice) as [H _].
  destruct H as [_ Hm]; [by left|].
  destruct (Hm "role" VNone) as (x & Hx & _); [by left|].
  discriminate Hx.
Qed.

(** C1, amended: [find(r, f)] returns exactly the stored values of [r], in
    stored order, in which every key of [f] either is present with a field
    equal to the filter value, or is absent while the filter value is
    [None]; so a value that lacks a key of [f] is excluded whenever the
    filter value for that key is not [None]. *)
Theorem find_filter_absent_as_null (s : InMemoryStorage.t) (r : string) (f : pydict) :
  (∃ keep : pydict → bool,
     (InMemoryStorage.find s r (Some f)).1 = List.filter keep (stored_values s r)
     ∧ ∀ v, keep v = true ↔ matches_filter_absent_as_null f v)
  ∧ (∀ v k fv,
       In (k, fv) f → odict.get k v = None → fv ≠ VNone →
       ¬ In v (InMemoryStorage.find s r (Some f)).1).
Proof.
  assert (Hfind : (InMemoryStorage.find s r (Some f)).1
    = List.filter (fun x => forallb (fun '(k, v) => py_eq (dict_get x k) v) f)
        (stored_values s r)).
  { rewrite find_result. destruct f as [|kv f]; simpl; [|done].
    induction (stored_values s r) as [|x l IH]; simpl; [done|]. by rewrite <- IH. }
  split.
  - eexists. split; [exact Hfind|]. intros v. apply filter_matches.
  - intros v k fv Hin Hk Hfv Hv. rewrite Hfind in Hv.
    apply filter_In in Hv as [_ Hv]. apply filter_matches in Hv.
    destruct (Hv k fv Hin) as [(x & Hx & _)|[_ ->]]; [congruence|done].
Qed.

(** ** Dispatch *)

(** C2: an action name that resolves to nothing on the handler (no attribute
    of that name, or one bound to [None]) makes [handle] return the error
    dict with the message [Unknown action: <a>]; nothing is raised and the
    storage is untouched. *)
Theorem unknown_action_is_error (h : ConceptHandler.t) (a : string)
    (input : pydict) (s : InMemoryStorage.t) :
  ConceptHandler.getattr h a = ConceptHandler.PyNone →
  ConceptHandler.handle h a input s
  = (Returns [("variant", VStr "error");
              ("message", VStr ("Unknown action: " +:+ a))], s).
Proof. intros Hm. unfold ConceptHandler.handle. by rewrite Hm. Qed.

(** The unknown action of the tests. *)
Lemma unknown_action_is_error_witness :
  ConceptHandler.handle EchoHandler "nonexistent" [] InMemoryStorage.init
  = (Returns [("variant", VStr "error");
              ("message", VStr "Unknown action: nonexistent")],
     InMemoryStorage.init).
Proof. apply (unknown_action_is_error EchoHandler "nonexistent"). reflexivity. Defined.

(** C7: when the action that [a] resolves to returns a dict with a [variant]
    key, [handle] returns that very dict, whatever the variant is. *)
Theorem action_result_passed_through (h : ConceptHandler.t) (a : string)
    (f : ConceptHandler.action_fn) (input d : pydict) (s s' : InMemoryStorage.t) :
  ConceptHandler.getattr h a = ConceptHandler.Coroutine f →
  f input s = (Returns (VDict d), s') →
  odict.contains "variant" d = true →
  ConceptHandler.handle h a input s = (Returns d, s').
Proof.
  intros Hm Hf Hv. unfold ConceptHandler.handle. rewrite Hm. simpl.
  unfold bind. rewrite Hf. by rewrite Hv.
Qed.

(** The [fail] action of the tests, whose own variant is [error]. *)
Lemma action_result_passed_through_witness :
  ConceptHandler.handle EchoHandler "fail" [] InMemoryStorage.init
  = (Returns [("variant", VStr "error"); ("message", VStr "intentional failure")],
     InMemoryStorage.init).
Proof.
  apply (action_result_passed_through EchoHandler "fail" fail);
    reflexivity.
Defined.

(** C10: the name [handle] is not an unknown action.  It resolves to the
    dispatcher the handler inherits, which is a coroutine function; called
    with [(input, storage)] it raises [TypeError], and [handle] lets the
    exception through. *)
Theorem handle_resolves_to_dispatcher (h : ConceptHandler.t) (input : pydict)
    (s : InMemoryStorage.t) :
  ConceptHandler.getattr h "handle" = ConceptHandler.Dispatcher
  ∧ ConceptHandler.iscoroutinefunction (ConceptHandler.getattr h "handle") = true
  ∧ ∃ msg, ConceptHandler.handle h "handle" input s = (Raises (TypeError msg), s).
Proof.
  assert (Hm : ConceptHandler.getattr h "handle" = ConceptHandler.Dispatcher).
  { unfold ConceptHandler.getattr, ConceptHandler.lookup_attr.
    by rewrite (ConceptHandler.inherits_handle h). }
  split; [exact Hm|]. split; [by rewrite Hm|].
  eexists. unfold ConceptHandler.handle. rewrite Hm. reflexivity.
Qed.

(** What [handle] can do: return a dict that has a [variant] key, or pass on
    the exception of the coroutine function it called. *)
Lemma handle_outcome (h : ConceptHandler.t) (a : string) (input : pydict)
    (s : InMemoryStorage.t) :
  match ConceptHandler.handle h a input s with
  | (Returns d, _) => ∃ v, odict.get "variant" d = Some v
  | (Raises e, _) =>
      ConceptHandler.iscoroutinefunction (ConceptHandler.getattr h a) = true
      ∧ (ConceptHandler.call (ConceptHandler.getattr h a) input s).1 = Raises e
  end.
Proof.
  unfold ConceptHandler.handle.
  destruct (ConceptHandler.is_None (ConceptHandler.getattr h a)); [by eexists|].
  destruct (ConceptHandler.iscoroutinefunction (ConceptHandler.getattr h a));
    simpl; [|by eexists].
  unfold bind.
  destruct (ConceptHandler.call (ConceptHandler.getattr h a) input s)
    as [[result|e] s']; simpl; [|done].
  destruct result as [| | | | |d]; try by eexists.
  unfold odict.contains.
  destruct (odict.get "variant" d) as [v|] eqn:Hv; simpl; [|by eexists].
  by exists v.
Qed.

(** ** Transport *)

(** C3: whenever [_handle_invoke] produces a completion, its [output] is a
    dict with a [variant] key and its top-level [variant] is that value: on
    the unknown-concept path, on every contract failure of the dispatch and
    when the action's result is passed through.  The only way for
    [_handle_invoke] not to produce a completion is that the concept is
    registered, the action name resolves to a coroutine function, and the
    call of that function raises. *)
Theorem completion_carries_variant_tag (env : Env) (body : InvokeBody) (w : World) :
  match _handle_invoke env body w with
  | (Returns c, _) => completion_carries_variant c
  | (Raises e, _) =>
      ∃ handler storage,
        let method :=
          ConceptHandler.getattr handler (default "" (body_action body)) in
        _REGISTRY w !! default "" (body_concept body) = Some (handler, storage)
        ∧ ConceptHandler.iscoroutinefunction method = true
        ∧ (ConceptHandler.call method (default [] (body_input body))
             (deref w storage)).1 = Raises e
  end.
Proof.
  unfold _handle_invoke.
  destruct (_REGISTRY w !! default "" (body_concept body))
    as [[handler storage]|] eqn:Hreg.
  - unfold bind, with_storage.
    pose proof (handle_outcome handler (default "" (body_action body))
                  (default [] (body_input body)) (deref w storage)) as Hh.
    destruct (ConceptHandler.handle handler (default "" (body_action body))
                (default [] (body_input body)) (deref w storage))
      as [[d|e] s']; simpl.
    + destruct Hh as [v Hv]. exists d, v. simpl. by rewrite Hv.
    + exists handler, storage. by destruct Hh.
  - simpl. by eexists _, _.
Qed.

(** C4: when the concept of a request is not in the registry,
    [_handle_invoke] returns a completion whose variant is [error] and whose
    output says [Unknown concept: <uri>], and [_handle_query] returns the
    empty list; neither raises and neither changes the process state. *)
Theorem unknown_concept (env : Env) (body : InvokeBody) (q : QueryBody)
    (w : World) (uri : string) :
  default "" (body_concept body) = uri →
  default "" (query_concept q) = uri →
  _REGISTRY w !! uri = None →
  (∃ c, _handle_invoke env body w = (Returns c, w)
        ∧ odict.get "concept" c = Some (VStr uri)
        ∧ odict.get "variant" c = Some (VStr "error")
        ∧ odict.get "output" c
          = Some (VDict [("variant", VStr "error");
                         ("message", VStr ("Unknown concept: " +:+ uri))]))
  ∧ _handle_query q w = ([], w).
Proof.
  intros Hb Hq Hreg. split.
  - unfold _handle_invoke. rewrite Hb, Hreg. by eexists.
  - unfold _handle_query. by rewrite Hq, Hreg.
Qed.

(** A concept that was never registered, next to one that was. *)
Lemma unknown_concept_witness :
  let env := {| uuid4_flow := "f-1"; uuid4_id := "i-1";
                strftime_gmtime := "2024-01-01T00:00:00Z" |} in
  let body := {| body_id := None; body_concept := Some "urn:test/Missing";
                 body_action := Some "echo"; body_input := None;
                 body_flow := None |} in
  let q := {| query_concept := Some "urn:test/Missing";
              query_relation := Some "users"; query_args := None |} in
  (∃ c, _handle_invoke env body echo_world = (Returns c, echo_world)
        ∧ odict.get "concept" c = Some (VStr "urn:test/Missing")
        ∧ odict.get "variant" c = Some (VStr "error")
        ∧ odict.get "output" c
          = Some (VDict [("variant", VStr "error");
                         ("message", VStr "Unknown concept: urn:test/Missing")]))
  ∧ _handle_query q echo_world = ([], echo_world).
Proof.
  intros env body q.
  apply (unknown_concept env body q echo_world "urn:test/Missing");
    [reflexivity | reflexivity | vm_compute; reflexivity].
Defined.

(** ** The storage properties at concrete inputs *)

(** A few calls that write [alice] only. *)
Lemma never_written_absent_witness :
  let ops := [Put 1%Z "users" "alice" alice; Get "posts" "p1";
              Delete "users" "bob"; Find "users" None] in
  let s := run InMemoryStorage.init ops in
  ((InMemoryStorage.get s "users" "bob").1 = None
   ∧ (InMemoryStorage.delete s "users" "bob").1 = false)
  ∧ (∀ args, (InMemoryStorage.find s "posts" args).1 = []).
Proof.
  intros ops s.
  split.
  - apply (proj1 (never_written_absent ops "users" "bob")). reflexivity.
  - apply (proj2 (never_written_absent ops "posts" "bob")). reflexivity.
Defined.

(** Writes to [posts] seen from [users]. *)
Lemma relations_isolated_witness :
  let s := users_with_alice in
  let s_put := (InMemoryStorage.put 2%Z s "posts" "k1" [("type", VStr "post")]).2 in
  let s_del := (InMemoryStorage.delete s "posts" "k1").2 in
  (InMemoryStorage.get s_put "users" "alice").1 = (InMemoryStorage.get s "users" "alice").1
  ∧ (InMemoryStorage.find s_put "users" None).1 = (InMemoryStorage.find s "users" None).1
  ∧ (InMemoryStorage.get s_del "users" "alice").1 = (InMemoryStorage.get s "users" "alice").1
  ∧ (InMemoryStorage.find s_del "users" None).1 = (InMemoryStorage.find s "users" None).1.
Proof.
  intros s s_put s_del.
  apply (relations_isolated users_with_alice "posts" "users"). discriminate.
Defined.

(** A filter on a role that [alice] does not have. *)
Lemma find_filter_absent_as_null_witness :
  ¬ In alice (InMemoryStorage.find users_with_alice "users"
                (Some [("role", VStr "admin")])).1.
Proof.
  apply (proj2 (find_filter_absent_as_null users_with_alice "users"
                  [("role", VStr "admin")]) alice "role" (VStr "admin")).
  - left. reflexivity.
  - reflexivity.
  - discriminate.
Defined.

(** ** The two servers *)


(** Targets that are not plain paths, where the two libraries read the
    path differently: a query string is cut off by aiohttp and kept by
    [http.server]; a doubled leading slash is collapsed by [http.server]. *)
Example get_health_with_query :
  let request := {| req_method := GET; req_path := "/health?x=1";
                    req_content := NoContent |} in
  (serve test_env request echo_world).1 = Status 200 (Some health)
  ∧ (_serve_stdlib test_env request echo_world).1 = Status 404 None.
Proof. by vm_compute. Qed.

Example get_health_doubled_slash :
  (_serve_stdlib test_env {| req_method := GET; req_path := "//health";
                             req_content := NoContent |} echo_world).1
  = Status 200 (Some health).
Proof. by vm_compute. Qed.








(** * Further properties of the code *)

(** ** Storage: what the results depend on *)

Lemma exec_unfold (s : InMemoryStorage.t) (o : op) :
  exec s o
  = (match o with
     | Get r k => GetResult (InMemoryStorage.get s r k).1
     | Put _ _ _ _ => PutResult
     | Delete r k => DeleteResult (InMemoryStorage.delete s r k).1
     | Find r args => FindResult (InMemoryStorage.find s r args).1
     end, step s o).
Proof.
  destruct o as [r k|now r k v|r k|r args]; simpl.
  - by destruct (InMemoryStorage.get s r k).
  - by destruct (InMemoryStorage.put now s r k v).
  - by destruct (InMemoryStorage.delete s r k).
  - by destruct (InMemoryStorage.find s r args).
Qed.

Lemma step_contents (s s' : InMemoryStorage.t) (o : op) :
  same_contents s s' → same_contents (step s o) (step s' o).
Proof.
  intros Hs r'. destruct o as [r k|now r k v|r k|r args]; simpl.
  - by rewrite !get_state.
  - rewrite !put_state. destruct (decide (r = r')); by rewrite ?Hs.
  - rewrite !delete_state. destruct (decide (r = r')); by rewrite ?Hs.
  - by rewrite !find_state.
Qed.

Lemma exec_contents (s s' : InMemoryStorage.t) (o : op) :
  same_contents s s' → (exec s o).1 = (exec s' o).1.
Proof.
  intros Hs. rewrite !exec_unfold. destruct o as [r k|now r k v|r k|r args]; simpl.
  - by rewrite !get_result, Hs.
  - done.
  - by rewrite !delete_result, Hs.
  - rewrite !find_result. unfold stored_values. by rewrite Hs.
Qed.

Lemma trace_contents (ops : list op) : ∀ s s',
  same_contents s s' → trace s ops = trace s' ops.
Proof.
  induction ops as [|o ops IH]; intros s s' Hs; simpl; [done|].
  pose proof (exec_contents s s' o Hs) as Hr.
  pose proof (step_contents s s' o Hs) as Hn.
  rewrite !exec_unfold in *. simpl in *. rewrite Hr. f_equal. by apply IH.
Qed.

Lemma read_keeps_contents (s : InMemoryStorage.t) (o : op) :
  is_read o = true → same_contents (step s o) s.
Proof.
  intros Hread r'. destruct o as [r k|now r k v|r k|r args]; simpl in *; try done.
  - by rewrite get_state.
  - by rewrite find_state.
Qed.

(** X1: [get] and [find] are reads.  However many of them run first, on
    whatever relations and keys, every later call returns what it would have
    returned without them. *)
Theorem reads_do_not_show (s : InMemoryStorage.t) (reads ops : list op) :
  forallb is_read reads = true →
  trace (run s reads) ops = trace s ops.
Proof.
  intros Hreads. apply trace_contents. revert s.
  induction reads as [|o reads IH]; intros s; simpl in *; [done|].
  apply andb_true_iff in Hreads as [Ho Hreads].
  intros r. rewrite (IH Hreads (step s o) r). by apply read_keeps_contents.
Qed.

(** Two reads, then the calls of one of the tests. *)
Lemma reads_do_not_show_witness :
  let ops := [Put 1%Z "users" "alice" alice; Find "users" None;
              Delete "users" "alice"; Get "users" "alice"] in
  trace (run InMemoryStorage.init [Get "users" "alice"; Find "posts" None]) ops
  = trace InMemoryStorage.init ops.
Proof.
  intros ops.
  apply (reads_do_not_show InMemoryStorage.init
           [Get "users" "alice"; Find "posts" None] ops).
  reflexivity.
Defined.

(** X2: a relation, once created, stays: no call removes a name from
    [_relations]; and every call, a read or a [delete] that finds nothing
    included, creates the relation it names. *)
Theorem relations_persist (s : InMemoryStorage.t) (o : op) (ops : list op) :
  relation_of o ∈ dom (InMemoryStorage._relations (step s o))
  ∧ ∀ r, r ∈ dom (InMemoryStorage._relations s) →
         r ∈ dom (InMemoryStorage._relations (run s ops)).
Proof.
  assert (Hens : ∀ s r,
    r ∈ dom (InMemoryStorage._relations (InMemoryStorage._ensure_relation s r).2)
    ∧ ∀ r', r' ∈ dom (InMemoryStorage._relations s) →
            r' ∈ dom (InMemoryStorage._relations (InMemoryStorage._ensure_relation s r).2)).
  { intros s0 r. unfold InMemoryStorage._ensure_relation.
    destruct (InMemoryStorage._relations s0 !! r) eqn:Hr; simpl.
    - split; [|done]. apply elem_of_dom. by eexists.
    - rewrite dom_insert_L. split.
      + apply elem_of_union_l. by apply elem_of_singleton.
      + intros r' Hr'. by apply elem_of_union_r. }
  assert (Hstore : ∀ s r rel,
    r ∈ dom (InMemoryStorage._relations (InMemoryStorage.store_relation s r rel))
    ∧ ∀ r', r' ∈ dom (InMemoryStorage._relations s) →
            r' ∈ dom (InMemoryStorage._relations (InMemoryStorage.store_relation s r rel))).
  { intros s0 r rel. unfold InMemoryStorage.store_relation; simpl.
    rewrite dom_insert_L. split.
    - apply elem_of_union_l. by apply elem_of_singleton.
    - intros r' Hr'. by apply elem_of_union_r. }
  assert (Hstep : ∀ s o,
    relation_of o ∈ dom (InMemoryStorage._relations (step s o))
    ∧ ∀ r, r ∈ dom (InMemoryStorage._relations s) →
           r ∈ dom (InMemoryStorage._relations (step s o))).
  { intros s0 o0.
    destruct o0 as [r k|now r k v|r k|r args]; simpl;
      unfold InMemoryStorage.get, InMemoryStorage.put, InMemoryStorage.delete,
        InMemoryStorage.find;
      pose proof (Hens s0 r) as [He1 He2];
      destruct (InMemoryStorage._ensure_relation s0 r) as [rel s1]; simpl in *.
    - done.
    - pose proof (Hstore s1 r
        (odict.set k {| InMemoryStorage.entry_value := v;
                        InMemoryStorage.meta_lastWrittenAt := now |} rel)) as [H1 H2].
      split; [done|]. intros r' Hr'. apply H2. by apply He2.
    - destruct (odict.contains k rel); simpl; [|done].
      pose proof (Hstore s1 r (odict.del k rel)) as [H1 H2].
      split; [done|]. intros r' Hr'. apply H2. by apply He2.
    - done. }
  split; [apply (proj1 (Hstep s o))|].
  revert s. induction ops as [|o' ops IH]; intros s r Hr; simpl; [done|].
  apply IH. by apply (proj2 (Hstep s o')).
Qed.

(** A relation that only reads created, and that outlives later calls. *)
Lemma relations_persist_witness :
  "users" ∈ dom (InMemoryStorage._relations
                   (run (step InMemoryStorage.init (Get "users" "alice"))
                        [Delete "users" "alice"; Find "posts" None])).
Proof.
  apply (proj2 (relations_persist (step InMemoryStorage.init (Get "users" "alice"))
                  (Get "users" "alice") [Delete "users" "alice"; Find "posts" None])).
  apply (proj1 (relations_persist InMemoryStorage.init (Get "users" "alice") [])).
Defined.

(** ** Ordered dicts: keys *)

Section odict_keys.
Context {V : Type}.
Implicit Types (k : string) (v : V) (d : list (string * V)).

Lemma odict_get_None k d : odict.get k d = None ↔ k ∉ map fst d.
Proof.
  induction d as [|[k' v'] d IH]; simpl.
  - split; [intros _; apply not_elem_of_nil|done].
  - rewrite not_elem_of_cons.
    destruct (String.eqb_spec k k') as [->|Hne]; split; try done.
    + by intros [? _].
    + intros H. split; [done|]. by apply IH.
    + intros [_ H]. by apply IH.
Qed.

Lemma odict_set_absent k v d :
  odict.get k d = None → odict.set k v d = (d ++ [(k, v)])%list.
Proof.
  induction d as [|[k' v'] d IH]; simpl; [done|].
  destruct (String.eqb_spec k k') as [->|Hne]; [done|].
  intros H. by rewrite IH.
Qed.

Lemma odict_set_present k v v0 d :
  odict.get k d = Some v0 →
  ∃ l1 l2, d = (l1 ++ (k, v0) :: l2)%list
           ∧ odict.set k v d = (l1 ++ (k, v) :: l2)%list.
Proof.
  induction d as [|[k' v'] d IH]; simpl; [done|].
  destruct (String.eqb_spec k k') as [->|Hne].
  - intros [= ->]. by exists [], d.
  - intros H. destruct (IH H) as (l1 & l2 & -> & Hset).
    exists ((k', v') :: l1), l2. by rewrite Hset.
Qed.

Lemma odict_set_keys k v d :
  NoDup (map fst d) → NoDup (map fst (odict.set k v d)).
Proof.
  intros Hd. destruct (odict.get k d) as [v0|] eqn:Hk.
  - destruct (odict_set_present k v v0 d Hk) as (l1 & l2 & Hd' & ->).
    rewrite Hd' in Hd. by rewrite map_app in *.
  - rewrite (odict_set_absent k v d Hk), map_app. simpl.
    apply NoDup_app. split; [done|]. split.
    + intros k' Hin Hk'. apply list_elem_of_singleton in Hk' as ->.
      by apply odict_get_None in Hk.
    + apply NoDup_singleton.
Qed.

Lemma odict_del_keys_subset k k' d :
  k' ∈ map fst (odict.del k d) → k' ∈ map fst d.
Proof.
  induction d as [|[k0 v0] d IH]; simpl; [done|].
  destruct (String.eqb_spec k k0) as [->|Hne]; simpl.
  - intros H. by apply list_elem_of_further.
  - rewrite !elem_of_cons. intros [->|H]; [by left|right; by apply IH].
Qed.

Lemma odict_del_keys k d :
  NoDup (map fst d) →
  NoDup (map fst (odict.del k d)) ∧ odict.get k (odict.del k d) = None.
Proof.
  induction d as [|[k0 v0] d IH]; simpl; [done|].
  rewrite NoDup_cons. intros [Hk0 Hd].
  destruct (String.eqb_spec k k0) as [->|Hne]; simpl.
  - split; [done|]. by apply odict_get_None.
  - destruct (IH Hd) as [IH1 IH2]. split.
    + apply NoDup_cons. split; [|done].
      intros H. by apply Hk0, (odict_del_keys_subset k).
    + by destruct (String.eqb_spec k k0).
Qed.

Lemma odict_del_set_absent k v d :
  odict.get k d = None → odict.del k (odict.set k v d) = d.
Proof.
  induction d as [|[k' v'] d IH]; simpl.
  - by rewrite String.eqb_refl.
  - destruct (String.eqb_spec k k') as [->|Hne]; [done|].
    intros H. simpl. destruct (String.eqb_spec k k'); [done|]. by rewrite IH.
Qed.

End odict_keys.

(** ** Storage: the keys of a relation *)

Lemma step_keys_unique (s : InMemoryStorage.t) (o : op) :
  keys_unique s → keys_unique (step s o).
Proof.
  intros Hs r'. destruct o as [r k|now r k v|r k|r args]; simpl.
  - rewrite get_state. apply Hs.
  - rewrite put_state. destruct (decide (r = r')); [|apply Hs].
    apply odict_set_keys, Hs.
  - rewrite delete_state. destruct (decide (r = r')); [|apply Hs].
    apply odict_del_keys, Hs.
  - rewrite find_state. apply Hs.
Qed.

Lemma run_keys_unique (ops : list op) : ∀ s,
  keys_unique s → keys_unique (run s ops).
Proof.
  induction ops as [|o ops IH]; intros s Hs; simpl; [done|].
  by apply IH, step_keys_unique.
Qed.

Lemma init_keys_unique : keys_unique InMemoryStorage.init.
Proof. intros r. unfold rel_of; simpl. rewrite lookup_empty. apply NoDup_nil_2. Qed.

(** X3: the keys of every relation are pairwise distinct in a new storage,
    and every call keeps them so; hence they are after any sequence of
    calls. *)
Theorem keys_stay_unique (ops : list op) :
  keys_unique (run InMemoryStorage.init ops)
  ∧ ∀ s, keys_unique s → keys_unique (run s ops).
Proof.
  split; [|apply run_keys_unique].
  apply run_keys_unique, init_keys_unique.
Qed.

(** X4: in a storage whose keys are unique, [delete(r, k)] returns whether
    [get(r, k)] finds a value, leaves [get(r, k)] returning [None], and a
    second [delete(r, k)] returns [False]. *)
Theorem delete_removes (s : InMemoryStorage.t) (r k : string) :
  keys_unique s →
  let s' := (InMemoryStorage.delete s r k).2 in
  ((InMemoryStorage.delete s r k).1 = true ↔ (InMemoryStorage.get s r k).1 ≠ None)
  ∧ (InMemoryStorage.get s' r k).1 = None
  ∧ (InMemoryStorage.delete s' r k).1 = false.
Proof.
  intros Hs. simpl. rewrite delete_result, !get_result, delete_result, delete_state.
  destruct (decide (r = r)) as [_|Hne]; [|done].
  destruct (odict_del_keys k (rel_of s r) (Hs r)) as [_ Hgone].
  unfold odict.contains. rewrite Hgone. simpl. split; [|done].
  by destruct (odict.get k (rel_of s r)).
Qed.

Lemma delete_removes_witness :
  let s' := (InMemoryStorage.delete users_with_alice "users" "alice").2 in
  ((InMemoryStorage.delete users_with_alice "users" "alice").1 = true
   ↔ (InMemoryStorage.get users_with_alice "users" "alice").1 ≠ None)
  ∧ (InMemoryStorage.get s' "users" "alice").1 = None
  ∧ (InMemoryStorage.delete s' "users" "alice").1 = false.
Proof.
  apply (delete_removes users_with_alice "users" "alice").
  apply (run_keys_unique [Put 0%Z "users" "alice" alice]), init_keys_unique.
Defined.

(** X5: a [put] or a [delete] of key [k] in relation [r] leaves the result
    of [get] for every other key, in [r] or elsewhere, as it was. *)
Theorem other_keys_untouched (s : InMemoryStorage.t) (r k r' k' : string) :
  (r, k) ≠ (r', k') →
  ∀ now v,
    (InMemoryStorage.get (InMemoryStorage.put now s r k v).2 r' k').1
    = (InMemoryStorage.get s r' k').1
    ∧ (InMemoryStorage.get (InMemoryStorage.delete s r k).2 r' k').1
      = (InMemoryStorage.get s r' k').1.
Proof.
  intros Hne now v. rewrite !get_result, put_state, delete_state.
  destruct (decide (r = r')) as [<-|Hr]; [|done].
  assert (Hk : k ≠ k') by congruence.
  by rewrite odict_get_set_ne, odict_get_del_ne.
Qed.

Lemma other_keys_untouched_witness :
  (InMemoryStorage.get
     (InMemoryStorage.put 3%Z users_with_alice "users" "bob" [("name", VStr "Bob")]).2
     "users" "alice").1
  = (InMemoryStorage.get users_with_alice "users" "alice").1
  ∧ (InMemoryStorage.get (InMemoryStorage.delete users_with_alice "users" "bob").2
       "users" "alice").1
    = (InMemoryStorage.get users_with_alice "users" "alice").1.
Proof.
  apply (other_keys_untouched users_with_alice "users" "bob" "users" "alice").
  discriminate.
Defined.

(** X6: what [put(r, k, v)] does to the list that [find(r)] returns.  For a
    key that [get] does not find, [v] is added at the end; for a key that
    holds [old], [v] takes the place of [old] and nothing else moves, so the
    number of values is the same. *)
Theorem put_appends_or_replaces (now : InMemoryStorage.Time)
    (s : InMemoryStorage.t) (r k : string) (v : pydict) :
  let before := (InMemoryStorage.find s r None).1 in
  let after := (InMemoryStorage.find (InMemoryStorage.put now s r k v).2 r None).1 in
  match (InMemoryStorage.get s r k).1 with
  | None => after = (before ++ [v])%list
  | Some old =>
      ∃ l1 l2, before = (l1 ++ old :: l2)%list ∧ after = (l1 ++ v :: l2)%list
  end.
Proof.
  simpl. rewrite get_result, !find_result. simpl. unfold stored_values.
  rewrite put_state. destruct (decide (r = r)) as [_|Hne]; [|done].
  unfold odict.values.
  destruct (odict.get k (rel_of s r)) as [e|] eqn:Hk; simpl.
  - destruct (odict_set_present k
                {| InMemoryStorage.entry_value := v;
                   InMemoryStorage.meta_lastWrittenAt := now |} e _ Hk)
      as (l1 & l2 & Hd & ->).
    rewrite Hd, !map_app. simpl. by eexists _, _.
  - rewrite odict_set_absent by done. by rewrite !map_app.
Qed.

(** X7: writing a key that [get] does not find and deleting it again leaves
    every relation holding what it held before. *)
Theorem put_then_delete_restores (now : InMemoryStorage.Time)
    (s : InMemoryStorage.t) (r k : string) (v : pydict) :
  (InMemoryStorage.get s r k).1 = None →
  let s' := (InMemoryStorage.delete (InMemoryStorage.put now s r k v).2 r k).2 in
  same_contents s' s ∧ ∀ ops, trace s' ops = trace s ops.
Proof.
  rewrite get_result. intros Hk. simpl.
  assert (Hsame : same_contents
    (InMemoryStorage.delete (InMemoryStorage.put now s r k v).2 r k).2 s).
  { intros r'. rewrite delete_state, put_state.
    destruct (decide (r = r')) as [<-|Hne].
    - destruct (decide (r = r)) as [_|Hne]; [|done].
      apply odict_del_set_absent. by apply fmap_None in Hk.
    - rewrite put_state. by destruct (decide (r = r')). }
  split; [done|]. intros ops. by apply trace_contents.
Qed.

Lemma put_then_delete_restores_witness :
  let s' := (InMemoryStorage.delete
               (InMemoryStorage.put 4%Z users_with_alice "users" "bob" []).2
               "users" "bob").2 in
  same_contents s' users_with_alice
  ∧ ∀ ops, trace s' ops = trace users_with_alice ops.
Proof.
  apply (put_then_delete_restores 4%Z users_with_alice "users" "bob" []).
  reflexivity.
Defined.

(** ** Filters made of a value's own fields *)

Lemma distinct_get (k : string) (x : value) (d : pydict) :
  distinct (map fst d) = true → In (k, x) d → odict.get k d = Some x.
Proof.
  induction d as [|[k0 x0] d IH]; simpl; [done|].
  intros [Hk0 Hd]%andb_true_iff [[= -> ->]|Hin].
  - by rewrite String.eqb_refl.
  - destruct (String.eqb_spec k k0) as [->|Hne]; [|by apply IH].
    apply negb_true_iff in Hk0. exfalso.
    assert (Hex : existsb (String.eqb k0) (map fst d) = true).
    { apply existsb_exists. exists k0. split; [|apply String.eqb_refl].
      apply in_map_iff. by exists (k0, x). }
    congruence.
Qed.

Lemma find_as_filter (s : InMemoryStorage.t) (r : string) (f : pydict) :
  (InMemoryStorage.find s r (Some f)).1
  = List.filter (fun x => forallb (fun '(k, v) => py_eq (dict_get x k) v) f)
      (stored_values s r).
Proof.
  rewrite find_result. destruct f as [|kv f]; simpl; [|done].
  induction (stored_values s r) as [|x l IH]; simpl; [done|]. by rewrite <- IH.
Qed.

(** X8: a stored value with distinct keys is found by every filter made of
    some of its own fields, provided each of these field values is equal to
    itself under [==] (every value is, but for a float NaN and what a NaN
    makes unequal to itself). *)
Theorem found_by_own_fields (s : InMemoryStorage.t) (r : string) (v f : pydict) :
  distinct (map fst v) = true →
  (∀ k x, In (k, x) f → In (k, x) v ∧ py_eq x x = true) →
  In v (InMemoryStorage.find s r None).1 →
  In v (InMemoryStorage.find s r (Some f)).1.
Proof.
  intros Hkeys Hsub Hin. rewrite find_result in Hin. simpl in Hin.
  rewrite find_as_filter. apply filter_In. split; [done|].
  apply forallb_forall. intros [k x] Hkx.
  destruct (Hsub k x Hkx) as [Hv Hx].
  unfold dict_get. by rewrite (distinct_get k x v Hkeys Hv).
Qed.

Lemma found_by_own_fields_witness :
  In alice (InMemoryStorage.find users_with_alice "users"
              (Some [("name", VStr "Alice")])).1.
Proof.
  apply (found_by_own_fields users_with_alice "users" alice [("name", VStr "Alice")]).
  - reflexivity.
  - intros k x [[= <- <-]|[]]. split; [by left|reflexivity].
  - left. reflexivity.
Defined.

(** ** Dispatch: exceptions *)

(** X9: [handle] raises exactly when the name resolves to a coroutine
    function whose call raises; the exception and the storage state are
    those the call left.  No other path of [handle] raises. *)
Theorem handle_raises_iff (h : ConceptHandler.t) (a : string) (input : pydict)
    (s s' : InMemoryStorage.t) (e : exn) :
  ConceptHandler.handle h a input s = (Raises e, s')
  ↔ ConceptHandler.iscoroutinefunction (ConceptHandler.getattr h a) = true
    ∧ ConceptHandler.call (ConceptHandler.getattr h a) input s = (Raises e, s').
Proof.
  unfold ConceptHandler.handle.
  destruct (ConceptHandler.getattr h a) as [| |f|] eqn:Hm; simpl.
  - split; [done|by intros [? _]].
  - split; [done|by intros [? _]].
  - unfold bind. destruct (f input s) as [[v|e0] s0]; simpl.
    + split; [|by intros [_ ?]].
      destruct v as [| | | | |d]; simpl; try done.
      by destruct (odict.contains "variant" d).
    + split; [by intros [= -> ->]|by intros [_ [= -> ->]]].
  - unfold bind, raise. simpl. split; [by intros [= <- <-]|by intros [_ [= <- <-]]].
Qed.

Lemma handle_raises_iff_witness :
  ConceptHandler.handle SaveHandler "save" [] InMemoryStorage.init
  = (Raises (OtherException "KeyError" "'id'"), InMemoryStorage.init).
Proof.
  apply (proj2 (handle_raises_iff SaveHandler "save" [] InMemoryStorage.init
                  InMemoryStorage.init (OtherException "KeyError" "'id'"))).
  split; reflexivity.
Defined.

(** ** Registry *)

(** X11: the last registration of a URI is the one in force, with the
    storage it was given when it was given one, and registering a URI leaves
    the binding of every other URI as it was. *)
Theorem register_last_wins (w : World) (uri : string)
    (st1 st2 : option loc) (h1 h2 : ConceptHandler.t) :
  let w' := register uri st2 h2 (register uri st1 h1 w) in
  (∃ l, _REGISTRY w' !! uri = Some (h2, l) ∧ ∀ l2, st2 = Some l2 → l = l2)
  ∧ ∀ uri', uri' ≠ uri → _REGISTRY w' !! uri' = _REGISTRY w !! uri'.
Proof.
  simpl. split.
  - destruct st2 as [l2|]; simpl.
    + exists l2. rewrite lookup_insert_eq. split; [done|]. by intros ? [= ->].
    + eexists. rewrite lookup_insert_eq. split; [done|]. by intros ? [=].
  - intros uri' Hne.
    destruct st2, st1; simpl; by rewrite !lookup_insert_ne.
Qed.

(** X12: registering with no storage allocates a new, empty storage.  In a
    world whose registry points into the heap, it is an object that no
    other concept holds, the storages the others hold are as they were, and
    the registry still points into the heap. *)
Theorem register_default_is_fresh (w : World) (uri : string) (h : ConceptHandler.t) :
  refs_allocated w →
  let w' := register uri None h w in
  ∃ l, _REGISTRY w' !! uri = Some (h, l)
       ∧ (l ∉ dom (heap w))
       ∧ deref w' l = InMemoryStorage.init
       ∧ (∀ uri' h' l', uri' ≠ uri → _REGISTRY w' !! uri' = Some (h', l') →
            l' ≠ l ∧ deref w' l' = deref w l')
       ∧ refs_allocated w'.
Proof.
  intros Hw. simpl. exists (fresh (dom (heap w))).
  pose proof (is_fresh (dom (heap w))) as Hfresh.
  split; [by rewrite lookup_insert_eq|]. split; [done|].
  split; [unfold deref; simpl; by rewrite lookup_insert_eq|]. split.
  - intros uri' h' l' Hne Hreg. rewrite lookup_insert_ne in Hreg by done.
    assert (Hl' : l' ≠ fresh (dom (heap w))).
    { intros ->. by apply Hfresh, (Hw uri' h'). }
    split; [done|]. unfold deref; simpl. by rewrite lookup_insert_ne.
  - intros uri' h' l'. simpl. rewrite dom_insert_L.
    destruct (decide (uri = uri')) as [<-|Hne].
    + rewrite lookup_insert_eq. intros [= <- <-].
      apply elem_of_union_l. by apply elem_of_singleton.
    + rewrite lookup_insert_ne by done. intros Hreg.
      apply elem_of_union_r. by apply (Hw uri' h').
Qed.

Lemma empty_world_allocated : refs_allocated empty_world.
Proof. intros uri h l. unfold empty_world; simpl. by rewrite lookup_empty. Qed.

Lemma register_default_is_fresh_witness :
  ∃ l, _REGISTRY echo_world !! "urn:test/Echo" = Some (EchoHandler, l)
       ∧ (l ∉ dom (heap empty_world))
       ∧ deref echo_world l = InMemoryStorage.init
       ∧ (∀ uri' h' l', uri' ≠ "urn:test/Echo" →
            _REGISTRY echo_world !! uri' = Some (h', l') →
            l' ≠ l ∧ deref echo_world l' = deref empty_world l')
       ∧ refs_allocated echo_world.
Proof.
  apply (register_default_is_fresh empty_world "urn:test/Echo" EchoHandler).
  apply empty_world_allocated.
Defined.

(** ** Transport: routing, envelope and frame *)

(** X13: an invocation of a registered concept reaches the action its name
    resolves to, with the input of the body and the storage bound to the
    concept.  When the action returns a dict with a [variant], the completion
    carries that dict as [output] and that variant, and the state left is the
    one the action left in the concept's storage. *)
Theorem invoke_reaches_action (env : Env) (body : InvokeBody) (w : World)
    (h : ConceptHandler.t) (l : loc) (f : ConceptHandler.action_fn)
    (d : pydict) (v : value) (s' : InMemoryStorage.t) :
  _REGISTRY w !! default "" (body_concept body) = Some (h, l) →
  ConceptHandler.getattr h (default "" (body_action body)) = ConceptHandler.Coroutine f →
  f (default [] (body_input body)) (deref w l) = (Returns (VDict d), s') →
  odict.get "variant" d = Some v →
  ∃ c, _handle_invoke env body w = (Returns c, assign w l s')
       ∧ odict.get "output" c = Some (VDict d)
       ∧ odict.get "variant" c = Some v.
Proof.
  intros Hreg Hm Hf Hv. unfold _handle_invoke. rewrite Hreg.
  unfold bind, with_storage, ConceptHandler.handle. rewrite Hm. simpl.
  unfold bind. rewrite Hf. unfold odict.contains. rewrite Hv. simpl.
  eexists. split; [reflexivity|]. simpl. by rewrite Hv.
Qed.

Lemma invoke_reaches_action_witness :
  ∃ c, _handle_invoke test_env echo_invocation echo_world
       = (Returns c, assign echo_world 0 InMemoryStorage.init)
       ∧ odict.get "output" c
         = Some (VDict [("variant", VStr "ok"); ("message", VStr "hi")])
       ∧ odict.get "variant" c = Some (VStr "ok").
Proof.
  apply (invoke_reaches_action test_env echo_invocation echo_world EchoHandler 0 echo);
    reflexivity.
Defined.

(** X14: the envelope of a completion.  Whatever path produced it, a
    completion has the eight keys of the protocol in their order; it echoes
    the concept, the action and the input of the body, with the defaults
    [""], [""] and [{}]; its id and flow are those of the body, or the
    generated ones when the body has none; its timestamp is the formatted
    clock reading. *)
Theorem completion_envelope (env : Env) (body : InvokeBody) (w w' : World)
    (c : pydict) :
  _handle_invoke env body w = (Returns c, w') →
  map fst c = completion_keys
  ∧ odict.get "id" c = Some (VStr (default (uuid4_id env) (body_id body)))
  ∧ odict.get "concept" c = Some (VStr (default "" (body_concept body)))
  ∧ odict.get "action" c = Some (VStr (default "" (body_action body)))
  ∧ odict.get "input" c = Some (VDict (default [] (body_input body)))
  ∧ odict.get "flow" c = Some (VStr (default (uuid4_flow env) (body_flow body)))
  ∧ odict.get "timestamp" c = Some (VStr (strftime_gmtime env)).
Proof.
  unfold _handle_invoke.
  destruct (_REGISTRY w !! default "" (body_concept body)) as [[h l]|].
  - unfold bind.
    destruct (with_storage l _ w) as [[d|e] w0]; [|done].
    intros [= <- <-]. by repeat split.
  - intros [= <- <-]. by repeat split.
Qed.

Lemma completion_envelope_witness :
  ∃ c, (_handle_invoke test_env echo_invocation echo_world).1 = Returns c
       ∧ map fst c = completion_keys
       ∧ odict.get "id" c = Some (VStr "i-1")
       ∧ odict.get "flow" c = Some (VStr "f-1").
Proof.
  destruct (_handle_invoke test_env echo_invocation echo_world) as [[c|e] w'] eqn:Hrun;
    [|vm_compute in Hrun; discriminate Hrun].
  exists c. split; [reflexivity|].
  destruct (completion_envelope test_env echo_invocation echo_world w' c Hrun)
    as (Hkeys & Hid & _ & _ & _ & Hflow & _).
  by repeat split.
Defined.

(** X16: a query never writes a value.  It leaves the registry as it was and
    every relation of every storage holding what it held; for a registered
    concept its result is that of [find] on the storage bound to the
    concept, with the relation and the filter of the body. *)
Theorem query_only_reads (q : QueryBody) (w : World) :
  let w' := (_handle_query q w).2 in
  _REGISTRY w' = _REGISTRY w
  ∧ (∀ l r, rel_of (deref w' l) r = rel_of (deref w l) r)
  ∧ ∀ h l, _REGISTRY w !! default "" (query_concept q) = Some (h, l) →
           (_handle_query q w).1
           = (InMemoryStorage.find (deref w l) (default "" (query_relation q))
                (query_args q)).1.
Proof.
  simpl. unfold _handle_query.
  destruct (_REGISTRY w !! default "" (query_concept q)) as [[h0 l0]|] eqn:Hreg.
  - pose proof (find_state (deref w l0) (default "" (query_relation q))
                  (query_args q)) as Hst.
    destruct (InMemoryStorage.find (deref w l0) _ _) as [res s'] eqn:Hfind.
    simpl in *. split; [done|]. split.
    + intros l r. unfold deref at 1. simpl.
      destruct (decide (l0 = l)) as [<-|Hne].
      * rewrite lookup_insert_eq. simpl. apply Hst.
      * by rewrite lookup_insert_ne.
    + intros h l [= <- <-]. by rewrite Hfind.
  - done.
Qed.

Lemma query_only_reads_witness :
  (_handle_query {| query_concept := Some "urn:test/Echo";
                    query_relation := Some "users"; query_args := None |}
                 echo_world).1
  = (InMemoryStorage.find (deref echo_world 0) "users" None).1.
Proof.
  apply (proj2 (proj2 (query_only_reads
           {| query_concept := Some "urn:test/Echo";
              query_relation := Some "users"; query_args := None |}
           echo_world)) EchoHandler 0).
  reflexivity.
Defined.

(** X17: two concepts registered with the same storage object share it: a
    query on one, right after an invocation of the other, runs [find] on the
    storage as the action of that invocation left it. *)
Theorem shared_storage_is_shared (env : Env) (body : InvokeBody) (q : QueryBody)
    (w : World) (ha hb : ConceptHandler.t) (l : loc) :
  _REGISTRY w !! default "" (body_concept body) = Some (ha, l) →
  _REGISTRY w !! default "" (query_concept q) = Some (hb, l) →
  let w' := (_handle_invoke env body w).2 in
  let s' := (ConceptHandler.handle ha (default "" (body_action body))
               (default [] (body_input body)) (deref w l)).2 in
  (_handle_query q w').1
  = (InMemoryStorage.find s' (default "" (query_relation q)) (query_args q)).1.
Proof.
  intros Ha Hb. simpl.
  assert (Hw' : (_handle_invoke env body w).2
                = assign w l (ConceptHandler.handle ha (default "" (body_action body))
                                (default [] (body_input body)) (deref w l)).2).
  { unfold _handle_invoke. rewrite Ha. unfold bind, with_storage.
    by destruct (ConceptHandler.handle ha _ _ (deref w l)) as [[d|e] s0]. }
  rewrite Hw'. unfold _handle_query. simpl. rewrite Hb.
  unfold deref at 1. simpl. rewrite lookup_insert_eq. simpl.
  by destruct (InMemoryStorage.find _ _ _).
Qed.

Lemma shared_storage_is_shared_witness :
  (_handle_query items_query (_handle_invoke test_env save_invocation shared_world).2).1
  = [[("id", VStr "a1"); ("title", VStr "first")]].
Proof.
  rewrite (shared_storage_is_shared test_env save_invocation items_query shared_world
             SaveHandler EchoHandler 0); reflexivity.
Defined.

(** ** The two servers: a request without a body *)

(** X19: a [POST] with no body.  The fallback reads it as the empty object,
    so it answers as it would for [{}]: on [/invoke], with no concept named
    [""] registered, 200 and the completion [Unknown concept: ].  The
    aiohttp application decodes the empty text, which fails, and answers
    [/invoke] and [/query] with 500. *)
Theorem post_without_body (env : Env) (path : string) (w : World) :
  let empty := {| req_method := POST; req_path := path; req_content := NoContent |} in
  let braces := {| req_method := POST; req_path := path;
                   req_content := Object empty_invocation empty_query |} in
  _serve_stdlib env empty w = _serve_stdlib env braces w
  ∧ (path = "/invoke" ∨ path = "/query" → serve env empty w = (Status 500 None, w))
  ∧ (path = "/invoke" → _REGISTRY w !! "" = None →
     ∃ c, _serve_stdlib env empty w = (Status 200 (Some (VDict c)), w)
          ∧ odict.get "output" c
            = Some (VDict [("variant", VStr "error");
                           ("message", VStr "Unknown concept: ")])).
Proof.
  simpl. split; [done|]. split.
  - by intros [->| ->].
  - intros -> Hreg. unfold _serve_stdlib, do_POST; simpl.
    unfold bind, _handle_invoke; simpl. rewrite Hreg. simpl. by eexists.
Qed.

Lemma post_without_body_witness :
  serve test_env {| req_method := POST; req_path := "/invoke";
                    req_content := NoContent |} echo_world
  = (Status 500 None, echo_world)
  ∧ ∃ c, _serve_stdlib test_env {| req_method := POST; req_path := "/invoke";
                                   req_content := NoContent |} echo_world
         = (Status 200 (Some (VDict c)), echo_world)
         ∧ odict.get "output" c
           = Some (VDict [("variant", VStr "error");
                          ("message", VStr "Unknown concept: ")]).
Proof.
  split.
  - apply (proj1 (proj2 (post_without_body test_env "/invoke" echo_world))).
    left. reflexivity.
  - apply (proj2 (proj2 (post_without_body test_env "/invoke" echo_world)));
      reflexivity.
Defined.

Lemma keys_stay_unique_witness :
  keys_unique (run InMemoryStorage.init
                 [Put 1%Z "users" "alice" alice; Put 2%Z "users" "alice" [];
                  Delete "users" "alice"]).
Proof.
  apply (proj2 (keys_stay_unique
                  [Put 1%Z "users" "alice" alice; Put 2%Z "users" "alice" [];
                   Delete "users" "alice"]) InMemoryStorage.init).
  apply init_keys_unique.
Defined.

Lemma register_last_wins_witness :
  let w' := register "urn:test/Echo" (Some 0) SaveHandler echo_world in
  _REGISTRY w' !! "urn:test/Echo" = Some (SaveHandler, 0)
  ∧ _REGISTRY w' !! "urn:test/Other" = _REGISTRY empty_world !! "urn:test/Other".
Proof.
  intros w'.
  destruct (register_last_wins empty_world "urn:test/Echo" None (Some 0)
              EchoHandler SaveHandler) as [(l & Hreg & Hl) Hother].
  split.
  - rewrite (Hl 0 eq_refl) in Hreg. exact Hreg.
  - apply Hother. discriminate.
Defined.
